(** * hid: the cgo binding of hidapi (hid_enabled.go)

    A shallow embedding of [hid_enabled.go]: the device-access layer
    ([Enumerate], [Device.Close], [Device.DoWrite], [Device.DoRead],
    [Device.getError]) and, further down, the library lifecycle and
    [DeviceInfo.Open].

    The hidapi C library is an external collaborator.  It is modelled as an
    interface ([HidApi]) over an abstract native world [W]; every call that
    crosses the cgo boundary is recorded in a chronological log, so that
    statements of the form "no native call is made" or "the native write
    receives these bytes" are statements about that log. *)

From Stdlib Require Import ZArith List String Strings.Byte Bool Lia.
From Stdlib Require Import Ascii DecimalString.
From ExtLib Require Import Structures.Monad Structures.MonadState.
From ExtLib Require Import Data.Monads.StateMonad.
Import ListNotations.
Import MonadNotation.
Local Open Scope monad_scope.
Local Open Scope Z_scope.

Set Implicit Arguments.

(* ===================================================================== *)
(** * Machine integers crossing the cgo boundary *)
(* ===================================================================== *)

(** [C.int(x)]: a Go integer conversion to the 32-bit signed C [int] keeps
    the low 32 bits and reads them in two's complement. *)
Definition C_int (x : Z) : Z := (x + 2 ^ 31) mod 2 ^ 32 - 2 ^ 31.

(** [C.ushort(x)] and Go's [uint16(x)]: the low 16 bits. *)
Definition C_ushort (x : Z) : Z := x mod 2 ^ 16.
Definition uint16 (x : Z) : Z := x mod 2 ^ 16.

(** The values a C [int] and a Go [time.Duration] (an int64) can hold. *)
Definition is_C_int (x : Z) : Prop := - 2 ^ 31 <= x < 2 ^ 31.

(** [time.Millisecond], in the nanoseconds a [time.Duration] counts. *)
Definition Millisecond : Z := 1000000.

(* ===================================================================== *)
(** * Data model *)
(* ===================================================================== *)

(** A [wchar_t*] text of the native layer: its code units. *)
Definition wstring := list Z.

(** A non-nil [*C.hid_device].  The Go field [device *C.hid_device] is an
    [option hid_device]: [None] is the nil pointer, the closed sentinel. *)
Definition hid_device := positive.

(** [struct hid_device_info], one node of the list [hid_enumerate] returns.
    The [next] chain is the enclosing [list]; a nil head is the empty list.
    The three text fields are nullable pointers. *)
Record hid_device_info := {
  path : string;
  vendor_id : Z;
  product_id : Z;
  release_number : Z;
  usage_page : Z;
  usage : Z;
  interface_number : Z;
  serial_number : option wstring;
  product_string : option wstring;
  manufacturer_string : option wstring
}.

(** Modelled from the spec: [ErrDeviceClosed], the package-level
    [DeviceClosed] error value, is declared outside hid_enabled.go.  It is
    a value of its own, distinct from every error built later.  The other
    two constructors are the errors this file builds, [errors.New] and
    [fmt.Errorf], with the message they carry. *)
Inductive error :=
| ErrDeviceClosed
| errors_New (msg : string)
| fmt_Errorf (msg : string).

(** Modelled from the spec: [type DeviceInfo struct] is declared outside
    hid_enabled.go.  These are the fields of the spec's data model, under
    the names and integer types [Enumerate] assigns them with; an absent
    text is Go's empty string. *)
Record DeviceInfo := {
  Path : string;
  VendorID : Z;
  ProductID : Z;
  Release : Z;
  UsagePage : Z;
  Usage : Z;
  Interface : Z;
  Serial : string;
  Product : string;
  Manufacturer : string
}.

(** [type Device struct { DeviceInfo; device *C.hid_device }]. *)
Record Device := {
  info : DeviceInfo;
  device : option hid_device
}.

(* ===================================================================== *)
(** * The native layer *)
(* ===================================================================== *)

(** The calls that cross into C, with the arguments the C side sees.  A
    pointer-and-length pair [(&b[0], len(b))] is the byte sequence it
    denotes. *)
Inductive NativeCall :=
| CallEnumerate (vid pid : Z)
| CallFreeEnumeration (head : list hid_device_info)
| CallClose (d : hid_device)
| CallWrite (d : hid_device) (report : list byte)
| CallSendFeatureReport (d : hid_device) (report : list byte)
| CallRead (d : hid_device) (buf : list byte)
| CallReadTimeout (d : hid_device) (buf : list byte) (milliseconds : Z)
| CallGetFeatureReport (d : hid_device) (buf : list byte)
| CallError (d : option hid_device)
| CallGetErrno.

(** hidapi, as a transition system on a native world [W].  The three read
    primitives return their C [int] result together with the contents of
    the caller's buffer as they leave it. *)
Class HidApi (W : Type) := {
  hid_enumerate : Z -> Z -> W -> list hid_device_info * W;
  hid_free_enumeration : list hid_device_info -> W -> unit * W;
  hid_close : hid_device -> W -> unit * W;
  hid_write : hid_device -> list byte -> W -> Z * W;
  hid_send_feature_report : hid_device -> list byte -> W -> Z * W;
  hid_read : hid_device -> list byte -> W -> (Z * list byte) * W;
  hid_read_timeout : hid_device -> list byte -> Z -> W -> (Z * list byte) * W;
  hid_get_feature_report : hid_device -> list byte -> W -> (Z * list byte) * W;
  hid_error : option hid_device -> W -> option wstring * W;
  GoHidGetErrno : W -> Z * W
}.

(** What the Go side takes from its runtime and from the rest of the
    package: [runtime.GOOS], the width of [uintptr], the text
    [syscall.Errno.Error] gives for an error number, and the package's
    [wcharTToString] decoder (wchar.go), whose error result the callers
    here discard. *)
Class Platform := {
  GOOS : string;
  uintptr_bits : Z;
  Errno_Error : Z -> string;
  wcharTToString : wstring -> string * option error
}.

(** The state a run threads: the native world and the log of native calls,
    oldest first. *)
Record St (W : Type) := mkSt {
  world : W;
  calls : list NativeCall
}.

Section Hid.

Context {W : Type} {api : HidApi W} {plat : Platform}.

(** One native call: log it, then let the native layer move the world. *)
Definition native {A : Type} (c : NativeCall) (f : W -> A * W)
  : state (St W) A :=
  mkState (fun st =>
    let (r, w') := f (world st) in
    (r, {| world := w'; calls := calls st ++ [c] |})).

(** [syscall.Errno(cErrno)]: a C int converted to Go's [uintptr]. *)
Definition syscall_Errno (cErrno : Z) : Z := cErrno mod 2 ^ uintptr_bits.

(** ** Enumerate *)

(** The body of the [for ; head != nil; head = head.next] loop: a text
    field keeps Go's zero value, the empty string, when its native
    pointer is nil. *)
Definition copy_info (head : hid_device_info) : DeviceInfo :=
  {| Path := path head;
     VendorID := uint16 (vendor_id head);
     ProductID := uint16 (product_id head);
     Release := uint16 (release_number head);
     UsagePage := uint16 (usage_page head);
     Usage := uint16 (usage head);
     Interface := interface_number head;
     Serial :=
       match serial_number head with
       | Some s => fst (wcharTToString s)
       | None => EmptyString
       end;
     Product :=
       match product_string head with
       | Some s => fst (wcharTToString s)
       | None => EmptyString
       end;
     Manufacturer :=
       match manufacturer_string head with
       | Some s => fst (wcharTToString s)
       | None => EmptyString
       end |}.

(** The loop itself: walk the native list, appending to [infos]. *)
Fixpoint walk (head : list hid_device_info) (infos : list DeviceInfo)
  : list DeviceInfo :=
  match head with
  | [] => infos
  | node :: next => walk next (infos ++ [copy_info node])
  end.

(** [func Enumerate(vendorID uint16, productID uint16) []DeviceInfo].
    The run is sequential, so [enumerateLock] is free on entry and
    released on return; it is not part of the state.  The deferred
    [hid_free_enumeration] is registered only past the nil check and
    runs after the result has been computed. *)
Definition Enumerate (vendorID productID : Z)
  : state (St W) (list DeviceInfo) :=
  head <- native (CallEnumerate (C_ushort vendorID) (C_ushort productID))
                 (hid_enumerate (C_ushort vendorID) (C_ushort productID)) ;;
  match head with
  | [] => ret []
  | _ :: _ =>
      let infos := walk head [] in
      native (CallFreeEnumeration head) (hid_free_enumeration head) ;;
      ret infos
  end.

(** ** Close *)

(** [func (dev *Device) Close() error].  The receiver is mutated in
    place; the model returns it next to the result. *)
Definition Close (dev : Device) : state (St W) (Device * option error) :=
  match device dev with
  | Some d =>
      native (CallClose d) (hid_close d) ;;
      ret ({| info := info dev; device := None |}, None)
  | None => ret (dev, None)
  end.

(** ** getError *)

(** [func (dev *Device) getError() error].  The receiver is a pointer
    that the function itself compares with nil, hence [option Device]. *)
Definition getError (dev : option Device) : state (St W) error :=
  match dev with
  | None => ret ErrDeviceClosed
  | Some dev =>
      message <- native (CallError (device dev)) (hid_error (device dev)) ;;
      match message with
      | None =>
          cErrno <- native CallGetErrno GoHidGetErrno ;;
          let err := syscall_Errno cErrno in
          ret (fmt_Errorf
                 ("hidapi: unknown failure. Errno: " ++ Errno_Error err))
      | Some message =>
          let failure := fst (wcharTToString message) in
          ret (errors_New ("hidapi: " ++ failure))
      end
  end.

(** ** DoWrite *)

(** [func (dev *Device) DoWrite(b []byte, featureReport bool) (int, error)].
    The C int result converts to Go's [int] without change of value. *)
Definition DoWrite (dev : Device) (b : list byte) (featureReport : bool)
  : state (St W) (Z * option error) :=
  match b with
  | [] => ret (0, None)
  | _ :: _ =>
      match device dev with
      | None => ret (0, Some ErrDeviceClosed)
      | Some device =>
          let report :=
            if String.eqb GOOS "windows" then x00 :: b else b in
          written <-
            (if featureReport
             then native (CallSendFeatureReport device report)
                         (hid_send_feature_report device report)
             else native (CallWrite device report)
                         (hid_write device report)) ;;
          if written =? -1
          then err <- getError (Some dev) ;; ret (0, Some err)
          else ret (written, None)
      end
  end.

(** ** DoRead *)

(** [func (dev *Device) DoRead(b []byte, featureReport bool,
    timeout time.Duration) (int, error)].  The buffer [b] is filled in
    place by the native layer; the model returns its final contents next
    to the Go result.  [timeout/time.Millisecond] is Go's integer
    division, which rounds toward zero. *)
Definition DoRead (dev : Device) (b : list byte) (featureReport : bool)
                  (timeout : Z)
  : state (St W) (list byte * (Z * option error)) :=
  match b with
  | [] => ret (b, (0, None))
  | _ :: _ =>
      match device dev with
      | None => ret (b, (0, Some ErrDeviceClosed))
      | Some device =>
          '(read, b') <-
            (if featureReport
             then native (CallGetFeatureReport device b)
                         (hid_get_feature_report device b)
             else if 0 <? timeout
             then
               let ms := C_int (Z.quot timeout Millisecond) in
               native (CallReadTimeout device b ms)
                      (hid_read_timeout device b ms)
             else native (CallRead device b) (hid_read device b)) ;;
          if read =? -1
          then err <- getError (Some dev) ;; ret (b', (0, Some err))
          else ret (b', (read, None))
      end
  end.

(** [func (dev *Device) Write(b []byte) (int, error)] and
    [func (dev *Device) Read(b []byte) (int, error)]. *)
Definition Write (dev : Device) (b : list byte) := DoWrite dev b false.
Definition Read (dev : Device) (b : list byte) := DoRead dev b false 0.

End Hid.

(* ===================================================================== *)
(** * A scripted native layer *)
(* ===================================================================== *)

(** A native layer that answers from a script: every write primitive
    answers [write_reply], every read primitive answers [read_reply],
    [hid_error] answers [error_text] and [errno] is fixed.  Closing a
    device is remembered in [closed]. *)
Module Mock.

Record World := {
  attached : list hid_device_info;
  write_reply : Z;
  read_reply : Z * list byte;
  error_text : option wstring;
  errno : Z;
  closed : list hid_device
}.

Definition close (d : hid_device) (w : World) : World :=
  {| attached := attached w; write_reply := write_reply w;
     read_reply := read_reply w; error_text := error_text w;
     errno := errno w; closed := closed w ++ [d] |}.

Definition api : HidApi World := {|
  hid_enumerate := fun _ _ w => (attached w, w);
  hid_free_enumeration := fun _ w => (tt, w);
  hid_close := fun d w => (tt, close d w);
  hid_write := fun _ _ w => (write_reply w, w);
  hid_send_feature_report := fun _ _ w => (write_reply w, w);
  hid_read := fun _ _ w => (read_reply w, w);
  hid_read_timeout := fun _ _ _ w => (read_reply w, w);
  hid_get_feature_report := fun _ _ w => (read_reply w, w);
  hid_error := fun _ w => (error_text w, w);
  GoHidGetErrno := fun w => (errno w, w)
|}.

(** Text of a wide string whose code units are all below 256. *)
Definition narrow (s : wstring) : string :=
  string_of_list_ascii
    (map (fun c => Ascii.ascii_of_N (Z.to_N c)) s).

Definition errno_text (e : Z) : string :=
  if e =? 13 then "permission denied"%string else "errno"%string.

Definition platform (os : string) : Platform := {|
  GOOS := os;
  uintptr_bits := 64;
  Errno_Error := errno_text;
  wcharTToString := fun s => (narrow s, None)
|}.

Definition windows : Platform := platform "windows".
Definition linux : Platform := platform "linux".

(** A world with nothing attached in which I/O fails with [-1] and the
    driver left the message "EIO". *)
Definition failing : World := {|
  attached := [];
  write_reply := -1;
  read_reply := (-1, [x00; x00]);
  error_text := Some [69; 73; 79];
  errno := 13;
  closed := []
|}.

(** The same, but the driver left no message. *)
Definition silent : World := {|
  attached := [];
  write_reply := -1;
  read_reply := (-1, [x00; x00]);
  error_text := None;
  errno := 13;
  closed := []
|}.

(** A world in which a write transmits three bytes and a timed read
    runs out with no data. *)
Definition idle : World := {|
  attached := [];
  write_reply := 3;
  read_reply := (0, [x00; x00]);
  error_text := None;
  errno := 0;
  closed := []
|}.

Definition no_info : DeviceInfo := {|
  Path := "/dev/hidraw0"; VendorID := 1133; ProductID := 49948;
  Release := 0; UsagePage := 1; Usage := 6; Interface := 0;
  Serial := ""; Product := ""; Manufacturer := ""
|}.

Definition open_dev : Device :=
  {| info := no_info; device := Some 7%positive |}.
Definition closed_dev : Device := {| info := no_info; device := None |}.

Definition start (w : World) : St World := {| world := w; calls := [] |}.

End Mock.

(* ===================================================================== *)
(** * Observations on a run *)
(* ===================================================================== *)

(** The five report-moving primitives, as opposed to the bookkeeping
    calls ([hid_error], errno, close, enumeration). *)
Definition is_io_call (c : NativeCall) : bool :=
  match c with
  | CallWrite _ _ | CallSendFeatureReport _ _
  | CallRead _ _ | CallReadTimeout _ _ _ | CallGetFeatureReport _ _ => true
  | _ => false
  end.

Definition io_calls (cs : list NativeCall) : list NativeCall :=
  filter is_io_call cs.

Section Observations.

Context {W : Type} {api : HidApi W} {plat : Platform}.

(** The state right after one native call [c] answered from [w] with a
    new world [w']. *)
Definition after (st : St W) (c : NativeCall) (w' : W) : St W :=
  {| world := w'; calls := calls st ++ [c] |}.

(** The bytes [DoWrite] hands to the native layer for a payload [b]. *)
Definition wire_report (b : list byte) : list byte :=
  if String.eqb GOOS "windows" then x00 :: b else b.

(** The write primitive [DoWrite] routes a report through, and the log
    entry it leaves. *)
Definition native_write (featureReport : bool)
  : hid_device -> list byte -> W -> Z * W :=
  if featureReport then hid_send_feature_report else hid_write.

Definition write_call (featureReport : bool) (d : hid_device)
                      (report : list byte) : NativeCall :=
  if featureReport then CallSendFeatureReport d report
  else CallWrite d report.

(** The read primitive [DoRead] routes a buffer through, and the log
    entry it leaves. *)
Definition native_read (featureReport : bool) (timeout : Z)
  : hid_device -> list byte -> W -> (Z * list byte) * W :=
  if featureReport then hid_get_feature_report
  else if 0 <? timeout
  then fun d b => hid_read_timeout d b (C_int (Z.quot timeout Millisecond))
  else hid_read.

Definition read_call (featureReport : bool) (timeout : Z)
                     (d : hid_device) (b : list byte) : NativeCall :=
  if featureReport then CallGetFeatureReport d b
  else if 0 <? timeout
  then CallReadTimeout d b (C_int (Z.quot timeout Millisecond))
  else CallRead d b.


End Observations.

(* ===================================================================== *)
(** * Library lifecycle and Open *)
(* ===================================================================== *)

(** The native calls of [Init], [Shutdown] and [Open]: the two runtime
    calls of hidapi, [hid_open_path], and the C copy of the path that
    [C.CString] allocates and the deferred [C.free] releases. *)
Inductive RuntimeCall :=
| CallInit
| CallExit
| CallCString (s : string)
| CallOpenPath (path : string)
| CallFree (path : string).

(** The rest of hidapi, on the same native world.  [hid_open_path]
    answers a handle or the nil pointer. *)
Class HidRuntime (W : Type) := {
  hid_init : W -> Z * W;
  hid_exit : W -> Z * W;
  hid_open_path : string -> W -> option hid_device * W
}.

(** A whole session: the state of the device layer and, beside it, the
    log of runtime calls, oldest first. *)
Record Sess (W : Type) := mkSess {
  dev_state : St W;
  runtime_calls : list RuntimeCall
}.

(** What C reads at the pointer [C.CString(s)] returns: the bytes of [s]
    up to its first NUL. *)
Fixpoint C_CString (s : string) : string :=
  match s with
  | EmptyString => EmptyString
  | String c rest =>
      if Ascii.eqb c Ascii.zero then EmptyString
      else String c (C_CString rest)
  end.

(** Whether a Go string holds no NUL byte. *)
Fixpoint nul_free (s : string) : bool :=
  match s with
  | EmptyString => true
  | String c rest => negb (Ascii.eqb c Ascii.zero) && nul_free rest
  end.

(** [%v] of a C int under [fmt]: its decimal digits, with a sign. *)
Definition fmt_v (x : Z) : string := NilZero.string_of_int (Z.to_int x).

Section Lifecycle.

Context {W : Type} {api : HidApi W} {rt : HidRuntime W} {plat : Platform}.

(** One runtime call: log it, then let the native layer move the world. *)
Definition runtime {A : Type} (c : RuntimeCall) (f : W -> A * W)
  : state (Sess W) A :=
  mkState (fun s =>
    let (r, w') := f (world (dev_state s)) in
    (r, {| dev_state := {| world := w'; calls := calls (dev_state s) |};
           runtime_calls := runtime_calls s ++ [c] |})).

(** A call into libc that hidapi's world does not see. *)
Definition libc (c : RuntimeCall) : state (Sess W) unit :=
  mkState (fun s =>
    (tt, {| dev_state := dev_state s;
            runtime_calls := runtime_calls s ++ [c] |})).

(** A step of the device layer inside a session. *)
Definition on_device {A : Type} (m : state (St W) A) : state (Sess W) A :=
  mkState (fun s =>
    let (a, st') := runState m (dev_state s) in
    (a, {| dev_state := st'; runtime_calls := runtime_calls s |})).

(** [func Init() error]. *)
Definition Init : state (Sess W) (option error) :=
  res <- runtime CallInit hid_init ;;
  if res <? 0
  then ret (Some (fmt_Errorf ("Failed to initialize hidapi: " ++ fmt_v res)))
  else ret None.

(** [func Shutdown() error]. *)
Definition Shutdown : state (Sess W) (option error) :=
  res <- runtime CallExit hid_exit ;;
  if res <? 0
  then ret (Some (fmt_Errorf ("Failed to clean up hidapi: " ++ fmt_v res)))
  else ret None.

(** [func Supported() bool]. *)
Definition Supported : bool := true.

(** [func (info DeviceInfo) Open()], which returns a [Device] pointer
    (nil on failure) and an error.  The deferred [C.free(path)] runs on
    both returns. *)
Definition Open (info : DeviceInfo)
  : state (Sess W) (option Device * option error) :=
  libc (CallCString (Path info)) ;;
  let path := C_CString (Path info) in
  device <- runtime (CallOpenPath path) (hid_open_path path) ;;
  match device with
  | None =>
      libc (CallFree path) ;;
      ret (None, Some (errors_New "hidapi: failed to open device"))
  | Some d =>
      libc (CallFree path) ;;
      ret (Some {| info := info; device := Some d |}, None)
  end.

End Lifecycle.

(** A scripted runtime over the scripted device layer: [hid_init] and
    [hid_exit] answer [init_reply] and [exit_reply], [hid_open_path]
    answers [open_reply]. *)
Module MockRuntime.

Record World := {
  hid : Mock.World;
  init_reply : Z;
  exit_reply : Z;
  open_reply : option hid_device
}.

Definition lift {A : Type} (f : Mock.World -> A * Mock.World) (w : World)
  : A * World :=
  let (a, h) := f (hid w) in
  (a, {| hid := h; init_reply := init_reply w; exit_reply := exit_reply w;
         open_reply := open_reply w |}).

Definition api : HidApi World := {|
  hid_enumerate := fun v p => lift (hid_enumerate (HidApi := Mock.api) v p);
  hid_free_enumeration :=
    fun l => lift (hid_free_enumeration (HidApi := Mock.api) l);
  hid_close := fun d => lift (hid_close (HidApi := Mock.api) d);
  hid_write := fun d r => lift (hid_write (HidApi := Mock.api) d r);
  hid_send_feature_report :=
    fun d r => lift (hid_send_feature_report (HidApi := Mock.api) d r);
  hid_read := fun d b => lift (hid_read (HidApi := Mock.api) d b);
  hid_read_timeout :=
    fun d b ms => lift (hid_read_timeout (HidApi := Mock.api) d b ms);
  hid_get_feature_report :=
    fun d b => lift (hid_get_feature_report (HidApi := Mock.api) d b);
  hid_error := fun d => lift (hid_error (HidApi := Mock.api) d);
  GoHidGetErrno := lift (GoHidGetErrno (HidApi := Mock.api))
|}.

Definition rt : HidRuntime World := {|
  hid_init := fun w => (init_reply w, w);
  hid_exit := fun w => (exit_reply w, w);
  hid_open_path := fun _ w => (open_reply w, w)
|}.

(** A keyboard on the bus, as hidapi lists it. *)
Definition keyboard : hid_device_info := {|
  path := "/dev/hidraw0";
  vendor_id := 1133;
  product_id := 49948;
  release_number := 273;
  usage_page := 1;
  usage := 6;
  interface_number := 0;
  serial_number := None;
  product_string := Some [75; 66];
  manufacturer_string := None
|}.

Definition bus (devices : list hid_device_info) (w : Mock.World)
  : Mock.World :=
  {| Mock.attached := devices; Mock.write_reply := Mock.write_reply w;
     Mock.read_reply := Mock.read_reply w;
     Mock.error_text := Mock.error_text w; Mock.errno := Mock.errno w;
     Mock.closed := Mock.closed w |}.

(** Everything succeeds, and the path opens as handle 7. *)
Definition healthy : World := {|
  hid := bus [keyboard] Mock.idle;
  init_reply := 0;
  exit_reply := 0;
  open_reply := Some 7%positive
|}.

(** The runtime refuses to start and no path opens. *)
Definition broken : World := {|
  hid := Mock.silent;
  init_reply := -1;
  exit_reply := -1;
  open_reply := None
|}.

Definition start (w : World) : Sess World :=
  {| dev_state := {| world := w; calls := [] |}; runtime_calls := [] |}.

End MockRuntime.

(** A native node whose five [unsigned short] fields hold values of that
    type. *)
Definition ushort_fields (node : hid_device_info) : Prop :=
  0 <= vendor_id node < 2 ^ 16 /\
  0 <= product_id node < 2 ^ 16 /\
  0 <= release_number node < 2 ^ 16 /\
  0 <= usage_page node < 2 ^ 16 /\
  0 <= usage node < 2 ^ 16.

(** The bytes a report-moving call hands to the native layer. *)
Definition call_bytes (c : NativeCall) : list byte :=
  match c with
  | CallWrite _ r | CallSendFeatureReport _ r => r
  | CallRead _ b | CallReadTimeout _ b _ | CallGetFeatureReport _ b => b
  | _ => []
  end.

(* ===================================================================== *)
(** * Properties *)
(* ===================================================================== *)

(** ** Integer conversions *)


Lemma C_int_range (x : Z) : is_C_int (C_int x).
Proof.
  unfold is_C_int, C_int.
  pose proof (Z.mod_pos_bound (x + 2 ^ 31) (2 ^ 32) ltac:(lia)). lia.
Qed.

(** Among the values of a C int, [-1] is the one with all 32 bits set. *)
Lemma sentinel_all_bits_set (r : Z) :
  is_C_int r -> (r = -1 <-> Z.land r (Z.ones 32) = Z.ones 32).
Proof.
  unfold is_C_int. intros Hr.
  rewrite Z.land_ones by lia.
  change (Z.ones 32) with (2 ^ 32 - 1).
  split; intros H.
  - subst r. reflexivity.
  - pose proof (Z.div_mod r (2 ^ 32) ltac:(lia)). lia.
Qed.


Section Properties.

Context {W : Type} {api : HidApi W} {plat : Platform}.

Implicit Types (dev : Device) (d : hid_device) (b : list byte) (st : St W).

(** ** The enumeration loop *)

Lemma walk_map (head : list hid_device_info) (infos : list DeviceInfo) :
  walk head infos = infos ++ map copy_info head.
Proof.
  revert infos. induction head as [|node next IH]; intros infos; simpl.
  - now rewrite app_nil_r.
  - rewrite IH, <- app_assoc. reflexivity.
Qed.

(** ** Runs of the primitives *)

Lemma io_calls_app (xs ys : list NativeCall) :
  io_calls (xs ++ ys) = io_calls xs ++ io_calls ys.
Proof. apply filter_app. Qed.

(** [getError] only consults the error accessors. *)
Lemma getError_calls (p : option Device) st :
  exists tail,
    calls (snd (runState (getError p) st)) = calls st ++ tail /\
    io_calls tail = [].
Proof.
  destruct p as [dev|]; simpl.
  - destruct (hid_error (device dev) (world st)) as [[msg|] w1]; simpl.
    + exists [CallError (device dev)]. split; reflexivity.
    + destruct (GoHidGetErrno w1) as [e w2]; simpl.
      exists [CallError (device dev); CallGetErrno].
      rewrite <- app_assoc. split; reflexivity.
  - exists []. rewrite app_nil_r. split; reflexivity.
Qed.

(** What a run of [DoWrite] on an open device amounts to. *)
Lemma DoWrite_run dev d b (featureReport : bool) st :
  device dev = Some d ->
  b <> [] ->
  runState (DoWrite dev b featureReport) st
  = let reply := native_write featureReport d (wire_report b) (world st) in
    let st1 :=
      after st (write_call featureReport d (wire_report b)) (snd reply) in
    if fst reply =? -1
    then ((0, Some (fst (runState (getError (Some dev)) st1))),
          snd (runState (getError (Some dev)) st1))
    else ((fst reply, None), st1).
Proof.
  intros Hopen Hb. destruct b as [|x b]; [congruence|].
  unfold DoWrite, wire_report, native_write, write_call.
  rewrite Hopen.
  set (report := if String.eqb GOOS "windows" then x00 :: x :: b else x :: b).
  destruct featureReport; cbn -[getError].
  - destruct (hid_send_feature_report d report (world st)) as [r w1].
    cbn -[getError]. destruct (r =? -1); cbn -[getError].
    + destruct (runState (getError (Some dev)) _); reflexivity.
    + reflexivity.
  - destruct (hid_write d report (world st)) as [r w1].
    cbn -[getError]. destruct (r =? -1); cbn -[getError].
    + destruct (runState (getError (Some dev)) _); reflexivity.
    + reflexivity.
Qed.

(** What a run of [DoRead] on an open device amounts to. *)
Lemma DoRead_run dev d b (featureReport : bool) (timeout : Z) st :
  device dev = Some d ->
  b <> [] ->
  runState (DoRead dev b featureReport timeout) st
  = let reply := native_read featureReport timeout d b (world st) in
    let st1 := after st (read_call featureReport timeout d b) (snd reply) in
    if fst (fst reply) =? -1
    then ((snd (fst reply),
           (0, Some (fst (runState (getError (Some dev)) st1)))),
          snd (runState (getError (Some dev)) st1))
    else ((snd (fst reply), (fst (fst reply), None)), st1).
Proof.
  intros Hopen Hb. destruct b as [|x b]; [congruence|].
  unfold DoRead, native_read, read_call.
  rewrite Hopen.
  destruct featureReport; [|destruct (0 <? timeout)]; cbn -[getError].
  - destruct (hid_get_feature_report d (x :: b) (world st)) as [[r b'] w1].
    cbn -[getError]. destruct (r =? -1); cbn -[getError].
    + destruct (runState (getError (Some dev)) _); reflexivity.
    + reflexivity.
  - destruct (hid_read_timeout d (x :: b) _ (world st)) as [[r b'] w1].
    cbn -[getError]. destruct (r =? -1); cbn -[getError].
    + destruct (runState (getError (Some dev)) _); reflexivity.
    + reflexivity.
  - destruct (hid_read d (x :: b) (world st)) as [[r b'] w1].
    cbn -[getError]. destruct (r =? -1); cbn -[getError].
    + destruct (runState (getError (Some dev)) _); reflexivity.
    + reflexivity.
Qed.

(** The log of a [DoWrite] on an open device: the write primitive
    first, then nothing that moves a report. *)
Lemma DoWrite_log dev d b (featureReport : bool) st :
  device dev = Some d ->
  b <> [] ->
  exists tail,
    calls (snd (runState (DoWrite dev b featureReport) st))
      = calls st ++ write_call featureReport d (wire_report b) :: tail /\
    io_calls tail = [].
Proof.
  intros Hopen Hb. rewrite (DoWrite_run _ _ st Hopen Hb). cbv zeta.
  destruct (fst _ =? -1).
  - cbn [snd].
    destruct (getError_calls (Some dev)
                (after st (write_call featureReport d (wire_report b))
                   (snd (native_write featureReport d (wire_report b)
                           (world st))))) as (tail & Hlog & Hio).
    exists tail. rewrite Hlog. cbn [after calls].
    rewrite <- app_assoc. split; [reflexivity | exact Hio].
  - exists []. split; reflexivity.
Qed.

(** The log of a [DoRead] on an open device, likewise. *)
Lemma DoRead_log dev d b (featureReport : bool) (timeout : Z) st :
  device dev = Some d ->
  b <> [] ->
  exists tail,
    calls (snd (runState (DoRead dev b featureReport timeout) st))
      = calls st ++ read_call featureReport timeout d b :: tail /\
    io_calls tail = [].
Proof.
  intros Hopen Hb. rewrite (DoRead_run _ _ _ st Hopen Hb). cbv zeta.
  destruct (fst _ =? -1).
  - cbn [snd].
    destruct (getError_calls (Some dev)
                (after st (read_call featureReport timeout d b)
                   (snd (native_read featureReport timeout d b (world st)))))
      as (tail & Hlog & Hio).
    exists tail. rewrite Hlog. cbn [after calls].
    rewrite <- app_assoc. split; [reflexivity | exact Hio].
  - exists []. split; reflexivity.
Qed.

Lemma write_call_is_io (featureReport : bool) d (report : list byte) :
  is_io_call (write_call featureReport d report) = true.
Proof. destruct featureReport; reflexivity. Qed.

Lemma read_call_is_io (featureReport : bool) (timeout : Z) d b :
  is_io_call (read_call featureReport timeout d b) = true.
Proof.
  unfold read_call. destruct featureReport; [|destruct (0 <? timeout)];
    reflexivity.
Qed.

Lemma io_calls_one (cs tail : list NativeCall) (c : NativeCall) :
  is_io_call c = true ->
  io_calls tail = [] ->
  io_calls (cs ++ c :: tail) = io_calls cs ++ [c].
Proof.
  intros Hc Htail. rewrite io_calls_app. unfold io_calls at 2.
  simpl. rewrite Hc. fold (io_calls tail). now rewrite Htail.
Qed.

(** X14. The millisecond argument of a timed read, for every timeout
    above zero: the whole milliseconds, narrowed to a C int. *)
Lemma DoRead_timed_argument dev d b (timeout : Z) st :
  device dev = Some d ->
  b <> [] ->
  0 < timeout ->
  io_calls (calls (snd (runState (DoRead dev b false timeout) st)))
  = io_calls (calls st)
    ++ [CallReadTimeout d b (C_int (Z.quot timeout Millisecond))].
Proof.
  intros Hopen Hb Ht.
  destruct (DoRead_log dev false timeout st Hopen Hb) as (tail & -> & Hio).
  unfold read_call. apply Z.ltb_lt in Ht. rewrite Ht.
  apply io_calls_one; [reflexivity | exact Hio].
Qed.

(** A non-empty native list is copied node by node, in order, and freed
    once the copy is complete. *)
Lemma Enumerate_attached (vendorID productID : Z) st
      (node : hid_device_info) (next : list hid_device_info) (w1 : W) :
  hid_enumerate (C_ushort vendorID) (C_ushort productID) (world st)
    = (node :: next, w1) ->
  runState (Enumerate vendorID productID) st
  = (map copy_info (node :: next),
     after (after st (CallEnumerate (C_ushort vendorID) (C_ushort productID))
                  w1)
           (CallFreeEnumeration (node :: next))
           (snd (hid_free_enumeration (node :: next) w1))).
Proof.
  intros Hlist. unfold Enumerate. cbn -[walk map]. rewrite Hlist.
  cbn -[walk map].
  destruct (hid_free_enumeration (node :: next) w1) as [[] w2].
  rewrite walk_map. reflexivity.
Qed.

(** X15. Whatever the device was, after [Close] a read or a write of a
    non-empty buffer is refused with [ErrDeviceClosed] and without a
    native call. *)
Lemma use_after_Close dev b (featureReport : bool) (timeout : Z) st :
  b <> [] ->
  let closed := fst (fst (runState (Close dev) st)) in
  let st1 := snd (runState (Close dev) st) in
  runState (DoWrite closed b featureReport) st1
    = ((0, Some ErrDeviceClosed), st1) /\
  runState (DoRead closed b featureReport timeout) st1
    = ((b, (0, Some ErrDeviceClosed)), st1).
Proof.
  intros Hb closed st1.
  assert (Hclosed : device closed = None).
  { subst closed. unfold Close. destruct (device dev) as [d|] eqn:Hd.
    - cbn. destruct (hid_close d (world st)) as [[] w1]. reflexivity.
    - cbn. exact Hd. }
  destruct b as [|x b]; [congruence|].
  unfold DoWrite, DoRead. rewrite Hclosed. split; reflexivity.
Qed.

(** ** Specified behaviour *)

(** C1. On a device whose handle is the closed sentinel, [DoWrite] and
    [DoRead] of a non-empty buffer return [ErrDeviceClosed] with count 0,
    whatever the feature flag and the timeout, and leave the state (the
    native world and the call log) untouched: no native call is made. *)
Theorem closed_device_rejected dev b (featureReport : bool) (timeout : Z) st :
  device dev = None ->
  b <> [] ->
  runState (DoWrite dev b featureReport) st
    = ((0, Some ErrDeviceClosed), st) /\
  runState (DoRead dev b featureReport timeout) st
    = ((b, (0, Some ErrDeviceClosed)), st).
Proof.
  intros Hclosed Hb.
  destruct b as [|x b]; [congruence|].
  unfold DoWrite, DoRead. rewrite Hclosed. split; reflexivity.
Qed.

(** C2. On an open device and a non-empty payload [b], the write
    primitive is the first native call [DoWrite] makes and the only one
    that moves a report.  When [GOOS] is "windows" it receives
    [0x00 :: b], which is [len(b)+1] bytes; on every other platform it
    receives [b] itself. *)
Theorem write_report_framing dev d b (featureReport : bool) st :
  device dev = Some d ->
  b <> [] ->
  (GOOS = "windows"%string ->
   (exists tail,
      calls (snd (runState (DoWrite dev b featureReport) st))
        = calls st ++ write_call featureReport d (x00 :: b) :: tail /\
      io_calls tail = []) /\
   List.length (x00 :: b) = S (List.length b) /\
   hd_error (x00 :: b) = Some x00 /\
   tl (x00 :: b) = b) /\
  (GOOS <> "windows"%string ->
   exists tail,
     calls (snd (runState (DoWrite dev b featureReport) st))
       = calls st ++ write_call featureReport d b :: tail /\
     io_calls tail = []).
Proof.
  intros Hopen Hb.
  pose proof (DoWrite_log dev featureReport st Hopen Hb) as Hlog.
  unfold wire_report in Hlog. split; intros Hos.
  - apply String.eqb_eq in Hos. rewrite Hos in Hlog.
    repeat split; auto.
  - apply String.eqb_neq in Hos. rewrite Hos in Hlog. exact Hlog.
Qed.

(** C3. [getError] on a nil receiver returns [ErrDeviceClosed] with no
    native call.  Otherwise it asks [hid_error] first: a message is
    decoded and returned as the error "hidapi: <text>", and errno is not
    read; only when there is no message is errno read, after the
    [hid_error] call, and returned as the error
    "hidapi: unknown failure. Errno: <errno text>". *)
Theorem getError_message_before_errno :
  (forall st, runState (getError None) st = (ErrDeviceClosed, st)) /\
  (forall dev st (message : wstring) (w1 : W),
     hid_error (device dev) (world st) = (Some message, w1) ->
     runState (getError (Some dev)) st
     = (errors_New ("hidapi: " ++ fst (wcharTToString message)),
        after st (CallError (device dev)) w1)) /\
  (forall dev st (w1 w2 : W) (cErrno : Z),
     hid_error (device dev) (world st) = (None, w1) ->
     GoHidGetErrno w1 = (cErrno, w2) ->
     runState (getError (Some dev)) st
     = (fmt_Errorf ("hidapi: unknown failure. Errno: "
                    ++ Errno_Error (syscall_Errno cErrno)),
        after (after st (CallError (device dev)) w1) CallGetErrno w2)).
Proof.
  repeat split.
  - intros dev st message w1 Hmsg. simpl. rewrite Hmsg. reflexivity.
  - intros dev st w1 w2 cErrno Hmsg Herrno. simpl.
    rewrite Hmsg. simpl. rewrite Herrno. reflexivity.
Qed.

(** C4. On an open device, with a non-empty buffer and a timeout above
    zero, a non-feature read whose [hid_read_timeout] answers 0 returns
    count 0 and no error, after that one native call. *)
Theorem timed_out_read_is_success dev d b (timeout : Z) st
        (b' : list byte) (w1 : W) :
  device dev = Some d ->
  b <> [] ->
  0 < timeout ->
  hid_read_timeout d b (C_int (Z.quot timeout Millisecond)) (world st)
    = ((0, b'), w1) ->
  runState (DoRead dev b false timeout) st
  = ((b', (0, None)),
     after st (CallReadTimeout d b (C_int (Z.quot timeout Millisecond))) w1).
Proof.
  intros Hopen Hb Ht Hreply.
  rewrite (DoRead_run _ _ _ st Hopen Hb).
  unfold native_read, read_call.
  apply Z.ltb_lt in Ht. rewrite Ht. cbv zeta. rewrite Hreply. reflexivity.
Qed.

(** C5. With a zero-length buffer [DoWrite] and [DoRead] return count 0
    and no error on every device and leave the state untouched (no
    native call); the length test comes first, so this is also the
    answer of a closed device, not [ErrDeviceClosed]. *)
Theorem empty_buffer_returns_zero dev (i : DeviceInfo)
        (featureReport : bool) (timeout : Z) st :
  runState (DoWrite dev [] featureReport) st = ((0, None), st) /\
  runState (DoRead dev [] featureReport timeout) st = (([], (0, None)), st) /\
  runState (DoWrite {| info := i; device := None |} [] featureReport) st
    = ((0, None), st) /\
  runState (DoRead {| info := i; device := None |} [] featureReport timeout) st
    = (([], (0, None)), st).
Proof. repeat split. Qed.

(** C6. [Close] never returns an error and leaves the handle at the
    closed sentinel.  On a closed device it makes no native call and
    changes nothing; on a live handle [d] it calls [hid_close d] exactly
    once.  Closing the result again is a no-op that succeeds. *)
Theorem Close_idempotent dev st (dev1 : Device) (err1 : option error)
        (st1 : St W) :
  runState (Close dev) st = ((dev1, err1), st1) ->
  err1 = None /\
  device dev1 = None /\
  info dev1 = info dev /\
  (device dev = None -> dev1 = dev /\ st1 = st) /\
  (forall d, device dev = Some d ->
             st1 = after st (CallClose d) (snd (hid_close d (world st)))) /\
  runState (Close dev1) st1 = ((dev1, None), st1).
Proof.
  unfold Close. destruct dev as [i [d|]]; cbn [device info].
  - cbn. destruct (hid_close d (world st)) as [[] w1] eqn:Hclose.
    intros H; injection H as <- <- <-.
    repeat split; try reflexivity; try discriminate.
    intros d' Hd; injection Hd as <-. rewrite Hclose. reflexivity.
  - cbn. intros H; injection H as <- <- <-.
    repeat split; try reflexivity. intros d Hd; discriminate.
Qed.

(** C7. On an open device and a non-empty payload: when the write
    primitive answers [-1], [DoWrite] returns count 0 with the error
    [getError] produces next; for every other answer it returns that
    answer with no error.  On "windows" the answer counts the prepended
    byte, so a full transmission of an n-byte payload returns n+1. *)
Theorem DoWrite_result dev d b (featureReport : bool) st (r : Z) (w1 : W) :
  device dev = Some d ->
  b <> [] ->
  native_write featureReport d (wire_report b) (world st) = (r, w1) ->
  let st1 := after st (write_call featureReport d (wire_report b)) w1 in
  (r = -1 ->
   runState (DoWrite dev b featureReport) st
   = ((0, Some (fst (runState (getError (Some dev)) st1))),
      snd (runState (getError (Some dev)) st1))) /\
  (r <> -1 ->
   runState (DoWrite dev b featureReport) st = ((r, None), st1)) /\
  (GOOS = "windows"%string ->
   r = Z.of_nat (List.length (wire_report b)) ->
   fst (runState (DoWrite dev b featureReport) st)
   = (Z.of_nat (List.length b) + 1, None)).
Proof.
  intros Hopen Hb Hreply st1.
  rewrite (DoWrite_run _ _ st Hopen Hb). cbv zeta. rewrite Hreply.
  cbn [fst snd]. fold st1. repeat split.
  - intros ->. reflexivity.
  - intros Hr. apply Z.eqb_neq in Hr. rewrite Hr. reflexivity.
  - intros Hos Hfull. unfold wire_report in Hfull.
    apply String.eqb_eq in Hos. rewrite Hos in Hfull.
    assert (Hlen : r = Z.of_nat (List.length b) + 1)
      by (rewrite Hfull; cbn [List.length]; lia).
    assert (Hne : (r =? -1) = false) by (apply Z.eqb_neq; lia).
    rewrite Hne. cbn [fst]. now rewrite Hlen.
Qed.


(** C9. When [hid_enumerate] returns a nil list, [Enumerate] returns the
    empty sequence after that single native call; its result type has no
    error component, and nothing is freed. *)
Theorem Enumerate_nothing_attached (vendorID productID : Z) st (w1 : W) :
  hid_enumerate (C_ushort vendorID) (C_ushort productID) (world st)
    = ([], w1) ->
  runState (Enumerate vendorID productID) st
  = ([], after st (CallEnumerate (C_ushort vendorID) (C_ushort productID)) w1).
Proof.
  intros Hnil. unfold Enumerate. cbn. rewrite Hnil. reflexivity.
Qed.

(** C10. When the native primitive that [DoWrite] or [DoRead] called
    answers [-1], the call fails and the count returned with the error
    is 0. *)
Theorem failed_io_count_is_zero dev d b (featureReport : bool)
        (timeout : Z) st :
  device dev = Some d ->
  b <> [] ->
  (fst (native_write featureReport d (wire_report b) (world st)) = -1 ->
   exists err,
     fst (runState (DoWrite dev b featureReport) st) = (0, Some err)) /\
  (fst (fst (native_read featureReport timeout d b (world st))) = -1 ->
   exists err,
     snd (fst (runState (DoRead dev b featureReport timeout) st))
     = (0, Some err)).
Proof.
  intros Hopen Hb. split; intros Hfail.
  - rewrite (DoWrite_run _ _ st Hopen Hb). cbv zeta. rewrite Hfail.
    cbn. eexists. reflexivity.
  - rewrite (DoRead_run _ _ _ st Hopen Hb). cbv zeta. rewrite Hfail.
    cbn. eexists. reflexivity.
Qed.

End Properties.

(* ===================================================================== *)
(** * Concrete runs against the scripted native layer *)
(* ===================================================================== *)

(** A closed device refuses a two-byte feature write and a timed read. *)
Lemma closed_device_rejected_witness :
  runState (DoWrite (api := Mock.api) (plat := Mock.linux)
                    Mock.closed_dev [x01; x02] true) (Mock.start Mock.idle)
    = ((0, Some ErrDeviceClosed), Mock.start Mock.idle) /\
  runState (DoRead (api := Mock.api) (plat := Mock.linux)
                   Mock.closed_dev [x01; x02] true 5) (Mock.start Mock.idle)
    = (([x01; x02], (0, Some ErrDeviceClosed)), Mock.start Mock.idle).
Proof.
  apply (closed_device_rejected (api := Mock.api) (plat := Mock.linux)
           Mock.closed_dev (b := [x01; x02]) true 5 (Mock.start Mock.idle)).
  - reflexivity.
  - discriminate.
Defined.

(** [write([0x01, 0x02])] puts [0x00, 0x01, 0x02] on the wire on windows
    and [0x01, 0x02] on linux. *)
Lemma write_report_framing_witness :
  (exists tail,
     calls (snd (runState (DoWrite (api := Mock.api) (plat := Mock.windows)
                                   Mock.open_dev [x01; x02] false)
                          (Mock.start Mock.idle)))
       = [] ++ CallWrite 7%positive [x00; x01; x02] :: tail /\
     io_calls tail = []) /\
  (exists tail,
     calls (snd (runState (DoWrite (api := Mock.api) (plat := Mock.linux)
                                   Mock.open_dev [x01; x02] false)
                          (Mock.start Mock.idle)))
       = [] ++ CallWrite 7%positive [x01; x02] :: tail /\
     io_calls tail = []).
Proof.
  split.
  - destruct (write_report_framing (api := Mock.api) (plat := Mock.windows)
                Mock.open_dev (d := 7%positive) (b := [x01; x02]) false
                (Mock.start Mock.idle) eq_refl ltac:(discriminate))
      as [Hwindows _].
    destruct (Hwindows eq_refl) as [Hlog _]. exact Hlog.
  - destruct (write_report_framing (api := Mock.api) (plat := Mock.linux)
                Mock.open_dev (d := 7%positive) (b := [x01; x02]) false
                (Mock.start Mock.idle) eq_refl ltac:(discriminate))
      as [_ Hother].
    apply Hother. discriminate.
Defined.

(** With the message "EIO" left by the driver the error carries it; with
    no message and errno 13 it carries the text of errno 13. *)
Lemma getError_message_before_errno_witness :
  runState (getError (api := Mock.api) (plat := Mock.linux)
                     (Some Mock.open_dev)) (Mock.start Mock.failing)
    = (errors_New "hidapi: EIO",
       {| world := Mock.failing; calls := [CallError (Some 7%positive)] |}) /\
  runState (getError (api := Mock.api) (plat := Mock.linux)
                     (Some Mock.open_dev)) (Mock.start Mock.silent)
    = (fmt_Errorf "hidapi: unknown failure. Errno: permission denied",
       {| world := Mock.silent;
          calls := [CallError (Some 7%positive); CallGetErrno] |}).
Proof.
  destruct (getError_message_before_errno
              (api := Mock.api) (plat := Mock.linux))
    as (_ & Hmessage & Herrno).
  split.
  - apply (Hmessage Mock.open_dev (Mock.start Mock.failing)
             [69; 73; 79] Mock.failing).
    reflexivity.
  - apply (Herrno Mock.open_dev (Mock.start Mock.silent)
             Mock.silent Mock.silent 13).
    + reflexivity.
    + reflexivity.
Defined.

(** [read(buffer, timeout = 100ms)] against a native layer that answers 0
    is a successful read of zero bytes. *)
Lemma timed_out_read_is_success_witness :
  runState (DoRead (api := Mock.api) (plat := Mock.linux)
                   Mock.open_dev [x00; x00] false (100 * Millisecond))
           (Mock.start Mock.idle)
  = (([x00; x00], (0, None)),
     {| world := Mock.idle;
        calls := [CallReadTimeout 7%positive [x00; x00] 100] |}).
Proof.
  apply (timed_out_read_is_success (api := Mock.api) (plat := Mock.linux)
           Mock.open_dev (d := 7%positive) (b := [x00; x00])
           (timeout := 100 * Millisecond) (Mock.start Mock.idle)
           (b' := [x00; x00]) (w1 := Mock.idle)).
  - reflexivity.
  - discriminate.
  - reflexivity.
  - reflexivity.
Defined.

(** Closing an open device calls [hid_close] once; closing it again does
    nothing. *)
Lemma Close_idempotent_witness :
  runState (Close (api := Mock.api) Mock.closed_dev)
           {| world := Mock.close 7%positive Mock.idle; calls := [CallClose 7%positive] |}
  = ((Mock.closed_dev, None),
     {| world := Mock.close 7%positive Mock.idle; calls := [CallClose 7%positive] |}).
Proof.
  apply (Close_idempotent (api := Mock.api) Mock.open_dev
           (Mock.start Mock.idle) (dev1 := Mock.closed_dev) (err1 := None)
           (st1 := {| world := Mock.close 7%positive Mock.idle;
                      calls := [CallClose 7%positive] |})).
  reflexivity.
Defined.

(** On windows a fully transmitted two-byte payload reports three bytes;
    a failed write reports the driver's message. *)
Lemma DoWrite_result_witness :
  fst (runState (DoWrite (api := Mock.api) (plat := Mock.windows)
                         Mock.open_dev [x01; x02] false)
                (Mock.start Mock.idle))
    = (3, None) /\
  runState (DoWrite (api := Mock.api) (plat := Mock.windows)
                    Mock.open_dev [x01; x02] false)
           (Mock.start Mock.failing)
    = ((0, Some (errors_New "hidapi: EIO")),
       {| world := Mock.failing;
          calls := [CallWrite 7%positive [x00; x01; x02];
                    CallError (Some 7%positive)] |}).
Proof.
  split.
  - destruct (DoWrite_result (api := Mock.api) (plat := Mock.windows)
                Mock.open_dev (d := 7%positive) (b := [x01; x02]) false
                (Mock.start Mock.idle) (r := 3) (w1 := Mock.idle)
                eq_refl ltac:(discriminate) eq_refl)
      as (_ & _ & Hfull).
    apply Hfull; reflexivity.
  - destruct (DoWrite_result (api := Mock.api) (plat := Mock.windows)
                Mock.open_dev (d := 7%positive) (b := [x01; x02]) false
                (Mock.start Mock.failing) (r := -1) (w1 := Mock.failing)
                eq_refl ltac:(discriminate) eq_refl)
      as (Hfail & _ & _).
    apply Hfail. reflexivity.
Defined.


(** Nothing attached: the enumeration is empty. *)
Lemma Enumerate_nothing_attached_witness :
  runState (Enumerate (api := Mock.api) (plat := Mock.linux) 0 0)
           (Mock.start Mock.idle)
  = ([], {| world := Mock.idle; calls := [CallEnumerate 0 0] |}).
Proof.
  apply (Enumerate_nothing_attached (api := Mock.api) (plat := Mock.linux)
           0 0 (Mock.start Mock.idle) (w1 := Mock.idle)).
  reflexivity.
Defined.

(** A failed write and a failed read both report count 0. *)
Lemma failed_io_count_is_zero_witness :
  (exists err,
     fst (runState (DoWrite (api := Mock.api) (plat := Mock.linux)
                            Mock.open_dev [x01; x02] false)
                   (Mock.start Mock.silent))
     = (0, Some err)) /\
  (exists err,
     snd (fst (runState (DoRead (api := Mock.api) (plat := Mock.linux)
                                Mock.open_dev [x00; x00] false 0)
                        (Mock.start Mock.silent)))
     = (0, Some err)).
Proof.
  destruct (failed_io_count_is_zero (api := Mock.api) (plat := Mock.linux)
              Mock.open_dev (d := 7%positive) (b := [x01; x02]) false 0
              (Mock.start Mock.silent) eq_refl ltac:(discriminate))
    as (Hwrite & _).
  destruct (failed_io_count_is_zero (api := Mock.api) (plat := Mock.linux)
              Mock.open_dev (d := 7%positive) (b := [x00; x00]) false 0
              (Mock.start Mock.silent) eq_refl ltac:(discriminate))
    as (_ & Hread).
  split.
  - apply Hwrite. reflexivity.
  - apply Hread. reflexivity.
Defined.


(* ===================================================================== *)
(** * Further properties of the device layer and the lifecycle *)
(* ===================================================================== *)

Section Further.

Context {W : Type} {api : HidApi W} {rt : HidRuntime W} {plat : Platform}.

Implicit Types (dev : Device) (d : hid_device) (b : list byte) (st : St W).

(** ** Auxiliary facts *)

Lemma getError_of_device dev st :
  fst (runState (getError (Some dev)) st) <> ErrDeviceClosed.
Proof.
  simpl. destruct (hid_error (device dev) (world st)) as [[msg|] w1]; simpl.
  - discriminate.
  - destruct (GoHidGetErrno w1) as [e w2]; simpl. discriminate.
Qed.

Lemma getError_log dev st :
  exists tail,
    calls (snd (runState (getError (Some dev)) st))
      = calls st ++ CallError (device dev) :: tail /\
    (tail = [] \/ tail = [CallGetErrno]).
Proof.
  simpl. destruct (hid_error (device dev) (world st)) as [[msg|] w1]; simpl.
  - exists []. split; [reflexivity | now left].
  - destruct (GoHidGetErrno w1) as [e w2]; simpl.
    exists [CallGetErrno]. rewrite <- app_assoc. split; [reflexivity | now right].
Qed.

Lemma C_CString_nul_free (s : string) :
  nul_free s = true -> C_CString s = s.
Proof.
  induction s as [|c rest IH]; simpl; [reflexivity|].
  destruct (Ascii.eqb c Ascii.zero); simpl; [discriminate|].
  intros H. now rewrite IH.
Qed.

Lemma no_io_calls (tail : list NativeCall) :
  io_calls tail = [] ->
  Forall (fun c => is_io_call c = true -> call_bytes c <> []) tail.
Proof.
  induction tail as [|c tail IH]; intros H; constructor.
  - intros Hc. unfold io_calls in H. simpl in H. rewrite Hc in H.
    discriminate.
  - apply IH. unfold io_calls in *. simpl in H.
    destruct (is_io_call c); [discriminate | exact H].
Qed.

Lemma wire_report_not_empty b : b <> [] -> wire_report b <> [].
Proof.
  unfold wire_report. destruct (String.eqb GOOS "windows"); congruence.
Qed.

Lemma Open_run (i : DeviceInfo) (s : Sess W) :
  runState (Open i) s
  = let reply := hid_open_path (C_CString (Path i)) (world (dev_state s)) in
    (match fst reply with
     | None => (None, Some (errors_New "hidapi: failed to open device"))
     | Some d => (Some {| info := i; device := Some d |}, None)
     end,
     {| dev_state := {| world := snd reply; calls := calls (dev_state s) |};
        runtime_calls :=
          runtime_calls s
          ++ [CallCString (Path i); CallOpenPath (C_CString (Path i));
              CallFree (C_CString (Path i))] |}).
Proof.
  unfold Open. cbn.
  destruct (hid_open_path (C_CString (Path i)) (world (dev_state s)))
    as [[d|] w1]; cbn; repeat rewrite <- app_assoc; reflexivity.
Qed.

(** ** Enumerate *)

(** X1. When the native list is not nil, [Enumerate] returns one record
    per node, in the order of the list, without filtering any, and makes
    two native calls: the enumeration, then one release of the very list
    it was given. *)
Theorem Enumerate_copies_every_node (vendorID productID : Z) st
        (head : list hid_device_info) (w1 : W) :
  hid_enumerate (C_ushort vendorID) (C_ushort productID) (world st)
    = (head, w1) ->
  head <> [] ->
  fst (runState (Enumerate vendorID productID) st) = map copy_info head /\
  List.length (fst (runState (Enumerate vendorID productID) st))
    = List.length head /\
  calls (snd (runState (Enumerate vendorID productID) st))
    = calls st ++ [CallEnumerate (C_ushort vendorID) (C_ushort productID);
                   CallFreeEnumeration head].
Proof.
  intros Hlist Hne. destruct head as [|node next]; [congruence|].
  rewrite (Enumerate_attached _ _ _ Hlist). cbn [fst snd].
  split; [reflexivity|]. split.
  - apply length_map.
  - cbn [after calls]. rewrite <- app_assoc. reflexivity.
Qed.

(** X2. The record [Enumerate] returns at position [i] carries the path,
    the five 16-bit numbers and the interface number of the native node
    at position [i] unchanged, and a text field whose native pointer is
    nil is the empty string. *)
Theorem Enumerate_keeps_identifiers (vendorID productID : Z) st
        (head : list hid_device_info) (w1 : W) (i : nat)
        (node : hid_device_info) :
  hid_enumerate (C_ushort vendorID) (C_ushort productID) (world st)
    = (head, w1) ->
  nth_error head i = Some node ->
  ushort_fields node ->
  exists r,
    nth_error (fst (runState (Enumerate vendorID productID) st)) i = Some r /\
    Path r = path node /\
    VendorID r = vendor_id node /\
    ProductID r = product_id node /\
    Release r = release_number node /\
    UsagePage r = usage_page node /\
    Usage r = usage node /\
    Interface r = interface_number node /\
    (serial_number node = None -> Serial r = EmptyString) /\
    (product_string node = None -> Product r = EmptyString) /\
    (manufacturer_string node = None -> Manufacturer r = EmptyString).
Proof.
  intros Hlist Hnth (Hv & Hp & Hr & Hup & Hu).
  exists (copy_info node). split.
  - destruct head as [|n0 next]; [destruct i; discriminate|].
    rewrite (Enumerate_attached _ _ _ Hlist). cbn [fst].
    now apply map_nth_error.
  - unfold copy_info, uint16. cbn.
    rewrite !Z.mod_small by assumption.
    repeat split; intros ->; reflexivity.
Qed.

(** ** Open *)

(** X3. [Open] hands [hid_open_path] the device's path.  A nil handle
    gives no device and the fixed error "hidapi: failed to open device";
    a handle gives an open device that embeds the [DeviceInfo] it was
    opened from.  Either way the device layer sees no call ([hid_error] is
    not consulted) and the C copy of the path is released after the
    native call. *)
Theorem Open_result (i : DeviceInfo) (s : Sess W)
        (handle : option hid_device) (w1 : W) :
  hid_open_path (C_CString (Path i)) (world (dev_state s)) = (handle, w1) ->
  (handle = None ->
   fst (runState (Open i) s)
   = (None, Some (errors_New "hidapi: failed to open device"))) /\
  (forall d, handle = Some d ->
   fst (runState (Open i) s)
   = (Some {| info := i; device := Some d |}, None)) /\
  calls (dev_state (snd (runState (Open i) s))) = calls (dev_state s) /\
  world (dev_state (snd (runState (Open i) s))) = w1 /\
  runtime_calls (snd (runState (Open i) s))
  = runtime_calls s
    ++ [CallCString (Path i); CallOpenPath (C_CString (Path i));
        CallFree (C_CString (Path i))].
Proof.
  intros Hopen. rewrite Open_run. cbv zeta. rewrite Hopen. cbn [fst snd].
  repeat split.
  - intros ->. reflexivity.
  - intros d ->. reflexivity.
Qed.

(** X4. Round trip from enumeration to open: every record [Enumerate]
    returns comes from a node of the native list, and opening it hands
    [hid_open_path] that node's path, byte for byte (a C string holds no
    NUL). *)
Theorem Open_reopens_enumerated_path (vendorID productID : Z) st
        (head : list hid_device_info) (w1 : W) (i : DeviceInfo)
        (s : Sess W) :
  hid_enumerate (C_ushort vendorID) (C_ushort productID) (world st)
    = (head, w1) ->
  In i (fst (runState (Enumerate vendorID productID) st)) ->
  exists node,
    In node head /\
    Path i = path node /\
    (nul_free (path node) = true ->
     runtime_calls (snd (runState (Open i) s))
     = runtime_calls s
       ++ [CallCString (path node); CallOpenPath (path node);
           CallFree (path node)]).
Proof.
  intros Hlist Hin.
  destruct head as [|n0 next].
  - unfold Enumerate in Hin. cbn in Hin. rewrite Hlist in Hin.
    cbn in Hin. contradiction.
  - rewrite (Enumerate_attached _ _ _ Hlist) in Hin. cbn [fst] in Hin.
    apply in_map_iff in Hin as (node & <- & Hnode).
    exists node. split; [exact Hnode|]. split; [reflexivity|].
    intros Hnul. rewrite Open_run. cbv zeta. cbn [snd runtime_calls].
    cbn [copy_info Path]. now rewrite (C_CString_nul_free _ Hnul).
Qed.

(** X5. A session on a device that opened as handle [d]: [Write] reaches
    [hid_write] on [d], [Close] calls [hid_close] on [d] and nothing else,
    and a [Write] after that [Close] is refused with [ErrDeviceClosed]. *)
Theorem Open_Write_Close (i : DeviceInfo) (s : Sess W) d (w1 : W) b :
  hid_open_path (C_CString (Path i)) (world (dev_state s)) = (Some d, w1) ->
  b <> [] ->
  exists dev,
    fst (runState (Open i) s) = (Some dev, None) /\
    info dev = i /\
    forall st,
      io_calls (calls (snd (runState (Write dev b) st)))
        = io_calls (calls st) ++ [CallWrite d (wire_report b)] /\
      calls (snd (runState (Close dev) st)) = calls st ++ [CallClose d] /\
      fst (runState (Write (fst (fst (runState (Close dev) st))) b)
                    (snd (runState (Close dev) st)))
        = (0, Some ErrDeviceClosed).
Proof.
  intros Hopen Hb.
  exists {| info := i; device := Some d |}. split.
  - rewrite Open_run. cbv zeta. rewrite Hopen. reflexivity.
  - split; [reflexivity|]. intros st. split; [|split].
    + unfold Write.
      destruct (DoWrite_log {| info := i; device := Some d |} false st
                  eq_refl Hb) as (tail & -> & Hio).
      apply io_calls_one; [reflexivity | exact Hio].
    + unfold Close. cbn. destruct (hid_close d (world st)) as [[] w2].
      reflexivity.
    + unfold Close. cbn. destruct (hid_close d (world st)) as [[] w2].
      cbn. unfold Write, DoWrite. destruct b; [congruence | reflexivity].
Qed.

(** ** Init and Shutdown *)

(** X6. [Init] and [Shutdown] make one native call each and fail exactly
    when its result is negative (a positive result is a success); the
    error text ends in the decimal result.  Neither touches the log of
    the device layer. *)
Theorem Init_Shutdown_result (s : Sess W) (r : Z) (w1 : W) :
  let s1 c := {| dev_state := {| world := w1; calls := calls (dev_state s) |};
                 runtime_calls := runtime_calls s ++ [c] |} in
  (hid_init (world (dev_state s)) = (r, w1) ->
   snd (runState Init s) = s1 CallInit /\
   (0 <= r -> fst (runState Init s) = None) /\
   (r < 0 ->
    fst (runState Init s)
    = Some (fmt_Errorf ("Failed to initialize hidapi: " ++ fmt_v r)))) /\
  (hid_exit (world (dev_state s)) = (r, w1) ->
   snd (runState Shutdown s) = s1 CallExit /\
   (0 <= r -> fst (runState Shutdown s) = None) /\
   (r < 0 ->
    fst (runState Shutdown s)
    = Some (fmt_Errorf ("Failed to clean up hidapi: " ++ fmt_v r)))).
Proof.
  intros s1. split; intros Hreply.
  - unfold Init. cbn. rewrite Hreply. cbn.
    destruct (Z.ltb_spec r 0); cbn; repeat split; intros; try reflexivity; lia.
  - unfold Shutdown. cbn. rewrite Hreply. cbn.
    destruct (Z.ltb_spec r 0); cbn; repeat split; intros; try reflexivity; lia.
Qed.

(** ** Read and write *)

(** X7. [Write] is the plain output report and [Read] the unbounded
    blocking read: on an open device and a non-empty buffer the only
    report-moving call of [Write] is [hid_write] and the only one of
    [Read] is [hid_read]; neither uses the feature-report or the timed
    primitive. *)
Theorem Write_Read_primitives dev d b st :
  device dev = Some d ->
  b <> [] ->
  io_calls (calls (snd (runState (Write dev b) st)))
    = io_calls (calls st) ++ [CallWrite d (wire_report b)] /\
  io_calls (calls (snd (runState (Read dev b) st)))
    = io_calls (calls st) ++ [CallRead d b].
Proof.
  intros Hopen Hb. unfold Write, Read. split.
  - destruct (DoWrite_log dev false st Hopen Hb) as (tail & -> & Hio).
    apply io_calls_one; [reflexivity | exact Hio].
  - destruct (DoRead_log dev false 0 st Hopen Hb) as (tail & -> & Hio).
    apply io_calls_one; [reflexivity | exact Hio].
Qed.

(** X8. A timeout above zero but below one millisecond becomes a timed
    read of zero milliseconds. *)
Theorem sub_millisecond_timeout dev d b (timeout : Z) st :
  device dev = Some d ->
  b <> [] ->
  0 < timeout < Millisecond ->
  io_calls (calls (snd (runState (DoRead dev b false timeout) st)))
  = io_calls (calls st) ++ [CallReadTimeout d b 0].
Proof.
  intros Hopen Hb [Hpos Hlt].
  destruct (DoRead_log dev false timeout st Hopen Hb) as (tail & -> & Hio).
  unfold read_call. apply Z.ltb_lt in Hpos as Hpos'. rewrite Hpos'.
  rewrite Z.quot_small by lia.
  apply io_calls_one; [reflexivity | exact Hio].
Qed.

(** X9. The result of a read on an open device: a native answer of [-1]
    gives count 0 and the error of [getError]; every other answer, also a
    negative one, is returned as the count with no error.  The buffer is
    as the native call left it in both cases. *)
Theorem DoRead_result dev d b (featureReport : bool) (timeout : Z) st
        (r : Z) (b' : list byte) (w1 : W) :
  device dev = Some d ->
  b <> [] ->
  native_read featureReport timeout d b (world st) = ((r, b'), w1) ->
  let st1 := after st (read_call featureReport timeout d b) w1 in
  (r = -1 ->
   runState (DoRead dev b featureReport timeout) st
   = ((b', (0, Some (fst (runState (getError (Some dev)) st1)))),
      snd (runState (getError (Some dev)) st1))) /\
  (r <> -1 ->
   runState (DoRead dev b featureReport timeout) st
   = ((b', (r, None)), st1)).
Proof.
  intros Hopen Hb Hreply st1.
  rewrite (DoRead_run _ _ _ st Hopen Hb). cbv zeta. rewrite Hreply.
  cbn [fst snd]. fold st1. split.
  - intros ->. reflexivity.
  - intros Hr. apply Z.eqb_neq in Hr. rewrite Hr. reflexivity.
Qed.

(** X10. [getError] returns [ErrDeviceClosed] only on a nil receiver.  On
    a device that exists but is closed it asks [hid_error] with the nil
    handle and reports what it finds. *)
Theorem getError_closed_only_for_nil (p : option Device) st :
  (fst (runState (getError p) st) = ErrDeviceClosed <-> p = None) /\
  (forall dev, p = Some dev -> device dev = None ->
     exists tail,
       calls (snd (runState (getError p) st))
       = calls st ++ CallError None :: tail).
Proof.
  split; [split|].
  - destruct p as [dev|]; [|reflexivity].
    intros H. now apply getError_of_device in H.
  - intros ->. reflexivity.
  - intros dev -> Hclosed.
    destruct (getError_log dev st) as (tail & Hlog & _).
    rewrite Hclosed in Hlog. now exists tail.
Qed.

(** X11. [DoWrite] and [DoRead] return [ErrDeviceClosed] exactly when the
    buffer is not empty and the handle is the closed sentinel: a failure
    of the native call on an open device is never reported as
    [ErrDeviceClosed]. *)
Theorem DeviceClosed_iff_closed dev b (featureReport : bool) (timeout : Z) st :
  (snd (fst (runState (DoWrite dev b featureReport) st))
     = Some ErrDeviceClosed
   <-> b <> [] /\ device dev = None) /\
  (snd (snd (fst (runState (DoRead dev b featureReport timeout) st)))
     = Some ErrDeviceClosed
   <-> b <> [] /\ device dev = None).
Proof.
  destruct b as [|x b].
  - split; (split; [discriminate | intros [H _]; congruence]).
  - destruct (device dev) as [d|] eqn:Hopen.
    + assert (Hb : x :: b <> []) by discriminate.
      rewrite (DoWrite_run _ _ st Hopen Hb).
      rewrite (DoRead_run _ _ _ st Hopen Hb). cbv zeta.
      split; (split; [|intros [_ H]; discriminate]).
      * match goal with
        | |- context [fst (runState (getError (Some dev)) ?s)] =>
            pose proof (getError_of_device dev s) as Hne;
            set (e := fst (runState (getError (Some dev)) s)) in *;
            clearbody e
        end.
        destruct (fst _ =? -1); cbn [fst snd]; [|discriminate].
        intros H. congruence.
      * match goal with
        | |- context [fst (runState (getError (Some dev)) ?s)] =>
            pose proof (getError_of_device dev s) as Hne;
            set (e := fst (runState (getError (Some dev)) s)) in *;
            clearbody e
        end.
        destruct (fst (fst _) =? -1); cbn [fst snd]; [|discriminate].
        intros H. congruence.
    + unfold DoWrite, DoRead. rewrite Hopen. cbn.
      split; (split; [intros _; split; [discriminate | reflexivity]
                     | reflexivity]).
Qed.

(** X12. When the native call of [DoWrite] or [DoRead] answers [-1], the
    next native call is [hid_error] on the same handle, followed by at
    most one read of errno, and nothing else. *)
Theorem failed_io_asks_same_handle dev d b (featureReport : bool)
        (timeout : Z) st :
  device dev = Some d ->
  b <> [] ->
  (fst (native_write featureReport d (wire_report b) (world st)) = -1 ->
   exists tail,
     calls (snd (runState (DoWrite dev b featureReport) st))
     = calls st ++ write_call featureReport d (wire_report b)
                   :: CallError (Some d) :: tail /\
     (tail = [] \/ tail = [CallGetErrno])) /\
  (fst (fst (native_read featureReport timeout d b (world st))) = -1 ->
   exists tail,
     calls (snd (runState (DoRead dev b featureReport timeout) st))
     = calls st ++ read_call featureReport timeout d b
                   :: CallError (Some d) :: tail /\
     (tail = [] \/ tail = [CallGetErrno])).
Proof.
  intros Hopen Hb. split; intros Hfail.
  - rewrite (DoWrite_run _ _ st Hopen Hb). cbv zeta. rewrite Hfail.
    cbn [Z.eqb Pos.eqb snd].
    destruct (getError_log dev
                (after st (write_call featureReport d (wire_report b))
                   (snd (native_write featureReport d (wire_report b)
                           (world st))))) as (tail & Hlog & Htail).
    exists tail. rewrite Hlog, Hopen. cbn [after calls].
    rewrite <- app_assoc. split; [reflexivity | exact Htail].
  - rewrite (DoRead_run _ _ _ st Hopen Hb). cbv zeta. rewrite Hfail.
    cbn [Z.eqb Pos.eqb snd].
    destruct (getError_log dev
                (after st (read_call featureReport timeout d b)
                   (snd (native_read featureReport timeout d b (world st)))))
      as (tail & Hlog & Htail).
    exists tail. rewrite Hlog, Hopen. cbn [after calls].
    rewrite <- app_assoc. split; [reflexivity | exact Htail].
Qed.

(** X13. Whatever the device, the buffer and the flags, no report-moving
    native call of [DoWrite] or [DoRead] is handed an empty byte
    sequence, so the address of its first byte always exists. *)
Theorem native_buffers_never_empty dev b (featureReport : bool)
        (timeout : Z) st :
  (exists new,
     calls (snd (runState (DoWrite dev b featureReport) st))
       = calls st ++ new /\
     Forall (fun c => is_io_call c = true -> call_bytes c <> []) new) /\
  (exists new,
     calls (snd (runState (DoRead dev b featureReport timeout) st))
       = calls st ++ new /\
     Forall (fun c => is_io_call c = true -> call_bytes c <> []) new).
Proof.
  destruct b as [|x b].
  - split; exists []; (split; [cbn; now rewrite app_nil_r | constructor]).
  - destruct (device dev) as [d|] eqn:Hopen.
    + assert (Hb : x :: b <> []) by discriminate. split.
      * destruct (DoWrite_log dev featureReport st Hopen Hb)
          as (tail & Hlog & Hio).
        eexists. split; [exact Hlog|]. constructor.
        -- intros _. destruct featureReport; cbn;
             now apply wire_report_not_empty.
        -- now apply no_io_calls.
      * destruct (DoRead_log dev featureReport timeout st Hopen Hb)
          as (tail & Hlog & Hio).
        eexists. split; [exact Hlog|]. constructor.
        -- intros _. unfold read_call.
           destruct featureReport; [|destruct (0 <? timeout)]; cbn;
             discriminate.
        -- now apply no_io_calls.
    + unfold DoWrite, DoRead. rewrite Hopen.
      split; exists []; (split; [cbn; now rewrite app_nil_r | constructor]).
Qed.

End Further.

(* ===================================================================== *)
(** * Further concrete runs *)
(* ===================================================================== *)

(** One keyboard on the bus: one record, then the list is released. *)
Lemma Enumerate_copies_every_node_witness :
  fst (runState (Enumerate (api := Mock.api) (plat := Mock.linux) 1133 0)
                (Mock.start (MockRuntime.bus [MockRuntime.keyboard]
                                             Mock.idle)))
    = map (copy_info (plat := Mock.linux)) [MockRuntime.keyboard] /\
  List.length
    (fst (runState (Enumerate (api := Mock.api) (plat := Mock.linux) 1133 0)
                   (Mock.start (MockRuntime.bus [MockRuntime.keyboard]
                                                Mock.idle))))
    = List.length [MockRuntime.keyboard] /\
  calls (snd (runState (Enumerate (api := Mock.api) (plat := Mock.linux)
                                  1133 0)
                       (Mock.start (MockRuntime.bus [MockRuntime.keyboard]
                                                    Mock.idle))))
    = [] ++ [CallEnumerate 1133 0;
             CallFreeEnumeration [MockRuntime.keyboard]].
Proof.
  apply (Enumerate_copies_every_node (api := Mock.api) (plat := Mock.linux)
           1133 0
           (Mock.start (MockRuntime.bus [MockRuntime.keyboard] Mock.idle))
           (head := [MockRuntime.keyboard])
           (w1 := MockRuntime.bus [MockRuntime.keyboard] Mock.idle)).
  - reflexivity.
  - discriminate.
Defined.

(** The keyboard's record keeps its identifiers and has no serial. *)
Lemma Enumerate_keeps_identifiers_witness :
  exists r,
    nth_error
      (fst (runState (Enumerate (api := Mock.api) (plat := Mock.linux) 0 0)
                     (Mock.start (MockRuntime.bus [MockRuntime.keyboard]
                                                  Mock.idle)))) 0
      = Some r /\
    Path r = "/dev/hidraw0"%string /\
    VendorID r = 1133 /\
    ProductID r = 49948 /\
    Serial r = EmptyString.
Proof.
  destruct (Enumerate_keeps_identifiers
              (api := Mock.api) (plat := Mock.linux) 0 0
              (Mock.start (MockRuntime.bus [MockRuntime.keyboard] Mock.idle))
              (head := [MockRuntime.keyboard])
              (w1 := MockRuntime.bus [MockRuntime.keyboard] Mock.idle)
              0%nat (node := MockRuntime.keyboard)
              eq_refl eq_refl
              ltac:(unfold ushort_fields; cbn; lia))
    as (r & Hnth & Hpath & Hvendor & Hproduct & _ & _ & _ & _ & Hserial & _).
  exists r. repeat split; try assumption.
  apply Hserial. reflexivity.
Defined.

(** A path that opens, and one that does not. *)
Lemma Open_result_witness :
  fst (runState (Open (rt := MockRuntime.rt) Mock.no_info)
                (MockRuntime.start MockRuntime.healthy))
    = (Some {| info := Mock.no_info; device := Some 7%positive |}, None) /\
  fst (runState (Open (rt := MockRuntime.rt) Mock.no_info)
                (MockRuntime.start MockRuntime.broken))
    = (None, Some (errors_New "hidapi: failed to open device")).
Proof.
  split.
  - destruct (Open_result (rt := MockRuntime.rt) Mock.no_info
                (MockRuntime.start MockRuntime.healthy)
                (handle := Some 7%positive) (w1 := MockRuntime.healthy)
                eq_refl)
      as (_ & Hopened & _).
    apply Hopened. reflexivity.
  - destruct (Open_result (rt := MockRuntime.rt) Mock.no_info
                (MockRuntime.start MockRuntime.broken)
                (handle := None) (w1 := MockRuntime.broken)
                eq_refl)
      as (Hfailed & _).
    apply Hfailed. reflexivity.
Defined.

(** Opening the enumerated keyboard asks for the path hidapi listed. *)
Lemma Open_reopens_enumerated_path_witness :
  runtime_calls
    (snd (runState
            (Open (rt := MockRuntime.rt)
                  (copy_info (plat := Mock.linux) MockRuntime.keyboard))
            (MockRuntime.start MockRuntime.healthy)))
  = [] ++ [CallCString "/dev/hidraw0"; CallOpenPath "/dev/hidraw0";
           CallFree "/dev/hidraw0"].
Proof.
  destruct (Open_reopens_enumerated_path
              (api := MockRuntime.api) (rt := MockRuntime.rt)
              (plat := Mock.linux) 0 0
              {| world := MockRuntime.healthy; calls := [] |}
              (head := [MockRuntime.keyboard]) (w1 := MockRuntime.healthy)
              (copy_info (plat := Mock.linux) MockRuntime.keyboard)
              (MockRuntime.start MockRuntime.healthy)
              eq_refl (or_introl eq_refl))
    as (node & Hin & _ & Hopen).
  destruct Hin as [<- | []].
  apply Hopen. reflexivity.
Defined.

(** Open, write two bytes, close, write again. *)
Lemma Open_Write_Close_witness :
  exists dev,
    fst (runState (Open (rt := MockRuntime.rt) Mock.no_info)
                  (MockRuntime.start MockRuntime.healthy))
      = (Some dev, None) /\
    info dev = Mock.no_info /\
    forall st,
      io_calls (calls (snd (runState
         (Write (api := MockRuntime.api) (plat := Mock.windows)
                dev [x01; x02]) st)))
        = io_calls (calls st) ++ [CallWrite 7%positive [x00; x01; x02]] /\
      calls (snd (runState (Close (api := MockRuntime.api) dev) st))
        = calls st ++ [CallClose 7%positive] /\
      fst (runState
             (Write (api := MockRuntime.api) (plat := Mock.windows)
                    (fst (fst (runState (Close (api := MockRuntime.api) dev)
                                        st)))
                    [x01; x02])
             (snd (runState (Close (api := MockRuntime.api) dev) st)))
        = (0, Some ErrDeviceClosed).
Proof.
  apply (Open_Write_Close (api := MockRuntime.api) (rt := MockRuntime.rt)
           (plat := Mock.windows) Mock.no_info
           (MockRuntime.start MockRuntime.healthy)
           (d := 7%positive) (w1 := MockRuntime.healthy)
           (b := [x01; x02])).
  - reflexivity.
  - discriminate.
Defined.

(** A runtime that answers -1 fails to start; one that answers 0 shuts
    down cleanly. *)
Lemma Init_Shutdown_result_witness :
  fst (runState (Init (rt := MockRuntime.rt))
                (MockRuntime.start MockRuntime.broken))
    = Some (fmt_Errorf "Failed to initialize hidapi: -1") /\
  fst (runState (Shutdown (rt := MockRuntime.rt))
                (MockRuntime.start MockRuntime.healthy))
    = None.
Proof.
  split.
  - destruct (Init_Shutdown_result (rt := MockRuntime.rt)
                (MockRuntime.start MockRuntime.broken) (-1)
                MockRuntime.broken)
      as (Hinit & _).
    destruct (Hinit eq_refl) as (_ & _ & Hfail).
    apply Hfail. reflexivity.
  - destruct (Init_Shutdown_result (rt := MockRuntime.rt)
                (MockRuntime.start MockRuntime.healthy) 0
                MockRuntime.healthy)
      as (_ & Hexit).
    destruct (Hexit eq_refl) as (_ & Hok & _).
    apply Hok. discriminate.
Defined.

(** [Write] and [Read] of two bytes on linux. *)
Lemma Write_Read_primitives_witness :
  io_calls (calls (snd (runState
     (Write (api := Mock.api) (plat := Mock.linux) Mock.open_dev [x01; x02])
     (Mock.start Mock.idle))))
    = [] ++ [CallWrite 7%positive [x01; x02]] /\
  io_calls (calls (snd (runState
     (Read (api := Mock.api) (plat := Mock.linux) Mock.open_dev [x00; x00])
     (Mock.start Mock.idle))))
    = [] ++ [CallRead 7%positive [x00; x00]].
Proof.
  split.
  - apply (Write_Read_primitives (api := Mock.api) (plat := Mock.linux)
             Mock.open_dev (d := 7%positive) (b := [x01; x02])
             (Mock.start Mock.idle) eq_refl ltac:(discriminate)).
  - apply (Write_Read_primitives (api := Mock.api) (plat := Mock.linux)
             Mock.open_dev (d := 7%positive) (b := [x00; x00])
             (Mock.start Mock.idle) eq_refl ltac:(discriminate)).
Defined.

(** Half a millisecond is a timed read of zero milliseconds. *)
Lemma sub_millisecond_timeout_witness :
  io_calls (calls (snd (runState
     (DoRead (api := Mock.api) (plat := Mock.linux)
             Mock.open_dev [x00; x00] false 500000)
     (Mock.start Mock.idle))))
  = [] ++ [CallReadTimeout 7%positive [x00; x00] 0].
Proof.
  apply (sub_millisecond_timeout (api := Mock.api) (plat := Mock.linux)
           Mock.open_dev (d := 7%positive) (b := [x00; x00])
           (timeout := 500000) (Mock.start Mock.idle)).
  - reflexivity.
  - discriminate.
  - unfold Millisecond. lia.
Defined.

(** A blocking read that finds nothing returns 0; one that fails returns
    the driver's message, and the buffer as the native call left it. *)
Lemma DoRead_result_witness :
  runState (DoRead (api := Mock.api) (plat := Mock.linux)
                   Mock.open_dev [x01; x02] false 0) (Mock.start Mock.idle)
    = (([x00; x00], (0, None)),
       {| world := Mock.idle; calls := [CallRead 7%positive [x01; x02]] |}) /\
  runState (DoRead (api := Mock.api) (plat := Mock.linux)
                   Mock.open_dev [x01; x02] false 0)
           (Mock.start Mock.failing)
    = (([x00; x00], (0, Some (errors_New "hidapi: EIO"))),
       {| world := Mock.failing;
          calls := [CallRead 7%positive [x01; x02];
                    CallError (Some 7%positive)] |}).
Proof.
  split.
  - destruct (DoRead_result (api := Mock.api) (plat := Mock.linux)
                Mock.open_dev (d := 7%positive) (b := [x01; x02]) false 0
                (Mock.start Mock.idle) (r := 0) (b' := [x00; x00])
                (w1 := Mock.idle) eq_refl ltac:(discriminate) eq_refl)
      as (_ & Hok).
    apply Hok. discriminate.
  - destruct (DoRead_result (api := Mock.api) (plat := Mock.linux)
                Mock.open_dev (d := 7%positive) (b := [x01; x02]) false 0
                (Mock.start Mock.failing) (r := -1) (b' := [x00; x00])
                (w1 := Mock.failing) eq_refl ltac:(discriminate) eq_refl)
      as (Hfail & _).
    apply Hfail. reflexivity.
Defined.

(** On a closed device [getError] asks [hid_error] with the nil handle. *)
Lemma getError_closed_only_for_nil_witness :
  exists tail,
    calls (snd (runState (getError (api := Mock.api) (plat := Mock.linux)
                                   (Some Mock.closed_dev))
                         (Mock.start Mock.failing)))
    = [] ++ CallError None :: tail.
Proof.
  destruct (getError_closed_only_for_nil
              (api := Mock.api) (plat := Mock.linux)
              (Some Mock.closed_dev) (Mock.start Mock.failing))
    as (_ & Hclosed).
  apply (Hclosed Mock.closed_dev); reflexivity.
Defined.

(** The error of a write on a closed device identifies the closed
    device. *)
Lemma DeviceClosed_iff_closed_witness :
  [x01] <> [] /\ device Mock.closed_dev = None.
Proof.
  apply (proj1 (proj1 (DeviceClosed_iff_closed
                         (api := Mock.api) (plat := Mock.linux)
                         Mock.closed_dev [x01] false 0
                         (Mock.start Mock.idle)))).
  reflexivity.
Defined.

(** A failed write with no driver message: write, [hid_error], errno. *)
Lemma failed_io_asks_same_handle_witness :
  exists tail,
    calls (snd (runState (DoWrite (api := Mock.api) (plat := Mock.linux)
                                  Mock.open_dev [x01; x02] false)
                         (Mock.start Mock.silent)))
    = [] ++ CallWrite 7%positive [x01; x02]
            :: CallError (Some 7%positive) :: tail /\
    (tail = [] \/ tail = [CallGetErrno]).
Proof.
  destruct (failed_io_asks_same_handle
              (api := Mock.api) (plat := Mock.linux)
              Mock.open_dev (d := 7%positive) (b := [x01; x02]) false 0
              (Mock.start Mock.silent) eq_refl ltac:(discriminate))
    as (Hwrite & _).
  apply Hwrite. reflexivity.
Defined.

(** A quarter of a second is 250 milliseconds. *)
Lemma DoRead_timed_argument_witness :
  io_calls (calls (snd (runState
     (DoRead (api := Mock.api) (plat := Mock.linux)
             Mock.open_dev [x00; x00] false (250 * Millisecond))
     (Mock.start Mock.idle))))
  = [] ++ [CallReadTimeout 7%positive [x00; x00]
             (C_int (Z.quot (250 * Millisecond) Millisecond))].
Proof.
  apply (DoRead_timed_argument (api := Mock.api) (plat := Mock.linux)
           Mock.open_dev (d := 7%positive) (b := [x00; x00])
           (timeout := 250 * Millisecond) (Mock.start Mock.idle)).
  - reflexivity.
  - discriminate.
  - reflexivity.
Defined.

(** Close the open device, then try to write and to read. *)
Lemma use_after_Close_witness :
  runState
    (DoWrite (api := Mock.api) (plat := Mock.linux)
             (fst (fst (runState (Close (api := Mock.api) Mock.open_dev)
                                 (Mock.start Mock.idle))))
             [x01] false)
    (snd (runState (Close (api := Mock.api) Mock.open_dev)
                   (Mock.start Mock.idle)))
    = ((0, Some ErrDeviceClosed),
       snd (runState (Close (api := Mock.api) Mock.open_dev)
                     (Mock.start Mock.idle))) /\
  runState
    (DoRead (api := Mock.api) (plat := Mock.linux)
            (fst (fst (runState (Close (api := Mock.api) Mock.open_dev)
                                (Mock.start Mock.idle))))
            [x01] false 0)
    (snd (runState (Close (api := Mock.api) Mock.open_dev)
                   (Mock.start Mock.idle)))
    = (([x01], (0, Some ErrDeviceClosed)),
       snd (runState (Close (api := Mock.api) Mock.open_dev)
                     (Mock.start Mock.idle))).
Proof.
  apply (use_after_Close (api := Mock.api) (plat := Mock.linux)
           Mock.open_dev (b := [x01]) false 0 (Mock.start Mock.idle)).
  discriminate.
Defined.
